(** * Fleet Dashboard API: a shallow embedding of [backend/app.py]

    The program is a Flask application with four view functions over one
    hard-coded pandas DataFrame.  The embedding follows the file top-down:

    - the column dictionary [data] and [pd.DataFrame(data)];
    - [get_fleet_data], which builds a fresh frame object on every call;
    - the pandas expressions used by the views (boolean-mask selection,
      [groupby(...).agg(...)], [round(1)], [reset_index], column renaming,
      [to_dict(orient='records')]);
    - the four views [home], [get_all_fleet_data], [get_fleet_summary] and
      [get_single_fleet], written in a small state-and-exception monad
      whose state is the heap of DataFrame objects.

    Modelling decisions:
    - column cells that hold Python [int]s are [Z]; pandas stores them as
      int64, so ['sum'] adds them in row order with wrap-around at 64 bits;
    - the column produced by ['mean'] is float64 and is modelled with the
      kernel's binary64 numbers: the cells are cast to float64, summed in
      row order with the compensated summation pandas uses, divided by the
      count, and rounded by numpy's scale, [rint], unscale.  A decimal
      literal such as [76.2] denotes the nearest binary64 number, the one
      Python prints with these digits.  General facts about these floats
      rest on the standard library's specification of the primitive
      operations;
    - exact rational arithmetic ([exact_mean], [rint] on [Q]) is kept beside
      it, to state what rounding would give under another tie rule;
    - [str] is [string]; Python compares strings by code point, which for
      UTF-8 encoded text is the byte-wise lexicographic order of
      [String_as_OT.compare];
    - a JSON document is the Python value handed to [jsonify]; dictionaries
      are association lists in insertion order. *)

From Stdlib Require Import String Ascii List ZArith QArith Bool Lia.
From Stdlib Require Import Permutation Sorted OrdersEx RelationClasses.
From Stdlib Require Import Floats.
From Stdlib Require Uint63.
Import ListNotations.

Set Warnings "-inexact-float".

Local Open Scope string_scope.
Local Open Scope list_scope.
Local Open Scope Z_scope.

(** ** Data model *)

(** One row of the frame built by [get_fleet_data]; the fields are the keys
    of the [data] dictionary. *)
Record Row := mkRow {
  fleet_id : string;
  month : string;
  availability : Z;
  missions_completed : Z;
  maintenance_hours : Z
}.

(** A frame with the five columns above, in row order. *)
Definition DataFrame := list Row.

(** The dictionary of columns handed to [pd.DataFrame]. *)
Record ColumnDict := mkColumns {
  col_fleet_id : list string;
  col_month : list string;
  col_availability : list Z;
  col_missions_completed : list Z;
  col_maintenance_hours : list Z
}.

(** Python's [lst * n] on lists. *)
Fixpoint list_mul {A : Type} (l : list A) (n : nat) : list A :=
  match n with
  | O => []
  | S n' => l ++ list_mul l n'
  end.

(** The literal [data = {...}] of [get_fleet_data]. *)
Definition data : ColumnDict := {|
  col_fleet_id := ["F-18"; "F-18"; "F-18"; "F-18";
                   "CH-147"; "CH-147"; "CH-147"; "CH-147";
                   "CP-140"; "CP-140"; "CP-140"; "CP-140"];
  col_month := list_mul ["Jan"; "Feb"; "Mar"; "Apr"] 3;
  col_availability := [85; 87; 82; 88;
                       72; 75; 78; 80;
                       90; 88; 92; 91];
  col_missions_completed := [45; 52; 38; 55;
                             28; 32; 35; 40;
                             62; 58; 65; 63];
  col_maintenance_hours := [320; 280; 360; 250;
                            450; 420; 380; 350;
                            180; 210; 160; 175]
|}.

(** Row [i] of the frame takes cell [i] of every column. *)
Fixpoint zip_columns (ids months : list string) (av mi ma : list Z)
  : list Row :=
  match ids, months, av, mi, ma with
  | i :: ids', m :: months', a :: av', c :: mi', h :: ma' =>
      mkRow i m a c h :: zip_columns ids' months' av' mi' ma'
  | _, _, _, _, _ => []
  end.

(** [pd.DataFrame] accepts a dictionary of lists only when all lists have
    the same length. *)
Definition same_lengths (c : ColumnDict) : bool :=
  let n := length (col_fleet_id c) in
  Nat.eqb (length (col_month c)) n
  && Nat.eqb (length (col_availability c)) n
  && Nat.eqb (length (col_missions_completed c)) n
  && Nat.eqb (length (col_maintenance_hours c)) n.

Definition rows_of_columns (c : ColumnDict) : DataFrame :=
  zip_columns (col_fleet_id c) (col_month c) (col_availability c)
              (col_missions_completed c) (col_maintenance_hours c).

(** ** The interpreter monad: a heap of frame objects, and exceptions *)

Inductive PyError :=
| ValueError (msg : string)
| DanglingReference.

(** Frame objects live on the heap; a Python variable such as [df] holds a
    reference (the position of the object in the heap). *)
Definition Heap := list DataFrame.
Definition Ref := nat.

Inductive Outcome (A : Type) :=
| Raised (e : PyError)
| Returned (a : A) (h : Heap).
Arguments Raised {A} e.
Arguments Returned {A} a h.

Definition Py (A : Type) := Heap -> Outcome A.

Definition ret {A : Type} (a : A) : Py A := fun h => Returned a h.

Definition bind {A B : Type} (m : Py A) (k : A -> Py B) : Py B :=
  fun h =>
    match m h with
    | Raised e => Raised e
    | Returned a h' => k a h'
    end.

Definition raise {A : Type} (e : PyError) : Py A := fun _ => Raised e.

Declare Scope py_scope.
Delimit Scope py_scope with py.
Notation "x <- m ;; k" := (bind m (fun x => k))
  (at level 61, m at next level, right associativity) : py_scope.

(** The value a computation returns, when it returns. *)
Definition result {A : Type} (o : Outcome A) : option A :=
  match o with
  | Raised _ => None
  | Returned a _ => Some a
  end.

(** The heap a computation leaves behind, when it returns. *)
Definition final_heap {A : Type} (o : Outcome A) : option Heap :=
  match o with
  | Raised _ => None
  | Returned _ h => Some h
  end.

(** [pd.DataFrame(c)]: a new frame object, appended to the heap. *)
Definition pd_DataFrame (c : ColumnDict) : Py Ref :=
  fun h =>
    if same_lengths c
    then Returned (length h) (h ++ [rows_of_columns c])
    else Raised (ValueError "All arrays must be of the same length").

(** Reading the rows of the frame a reference points to.  References come
    from [pd_DataFrame] only and objects are never freed, so the second
    branch is never taken by the views ([read_fresh]). *)
Definition read (df : Ref) : Py DataFrame :=
  fun h =>
    match nth_error h df with
    | Some rows => Returned rows h
    | None => Raised DanglingReference
    end.

(** [get_fleet_data()]. *)
Definition get_fleet_data : Py Ref :=
  (df <- pd_DataFrame data ;;
   ret df)%py.

(** ** JSON values and responses *)

(** The Python values the views hand to [jsonify]. *)
#[warnings="-register-all"]
Inductive json :=
| JString (s : string)
| JInt (n : Z)
| JFloat (x : float)
| JList (items : list json)
| JDict (entries : list (string * json)).

(** What a view returns to Flask: a JSON body and a status code. *)
Record Response := mkResponse {
  body : json;
  status : Z
}.

(** [jsonify(v)] returned alone is a 200 response. *)
Definition jsonify (v : json) : Response := mkResponse v 200.

(** The tuple form [(jsonify(v), code)]. *)
Definition with_status (r : Response) (code : Z) : Response :=
  mkResponse (body r) code.

(** [d[key]] on a dictionary, as an option. *)
Fixpoint dict_get (key : string) (entries : list (string * json))
  : option json :=
  match entries with
  | [] => None
  | (k, v) :: rest => if String.eqb k key then Some v else dict_get key rest
  end.

(** Field [key] of a JSON value that is a dictionary. *)
Definition field (key : string) (v : json) : option json :=
  match v with
  | JDict entries => dict_get key entries
  | _ => None
  end.

(** The items of a JSON value that is a list. *)
Definition items_of (v : json) : list json :=
  match v with
  | JList items => items
  | _ => []
  end.

(** ** The pandas expressions used by the views *)

(** One row of [df.to_dict(orient='records')]: column name to cell, in
    column order. *)
Definition record_of_row (r : Row) : json :=
  JDict [("fleet_id", JString (fleet_id r));
         ("month", JString (month r));
         ("availability", JInt (availability r));
         ("missions_completed", JInt (missions_completed r));
         ("maintenance_hours", JInt (maintenance_hours r))].

(** [df.to_dict(orient='records')]. *)
Definition to_dict_records (df : DataFrame) : list json :=
  map record_of_row df.

(** [df['fleet_id'] == fleet_id]: one boolean per row. *)
Definition eq_mask (df : DataFrame) (fid : string) : list bool :=
  map (fun r => String.eqb (fleet_id r) fid) df.

(** [df[mask]]: the rows whose mask entry is [True], in row order. *)
Fixpoint select_mask (df : DataFrame) (mask : list bool) : DataFrame :=
  match df, mask with
  | r :: df', b :: mask' =>
      if b then r :: select_mask df' mask' else select_mask df' mask'
  | _, _ => []
  end.

(** [df.empty]; the frame always has its five columns, so it is empty
    exactly when it has no row. *)
Definition empty (df : DataFrame) : bool :=
  match df with
  | [] => true
  | _ :: _ => false
  end.

(** *** groupby *)

(** Distinct keys in order of first appearance (the factorisation step of
    [groupby]). *)
Fixpoint unique (l : list string) : list string :=
  match l with
  | [] => []
  | k :: rest => k :: filter (fun k' => negb (String.eqb k k')) (unique rest)
  end.

Fixpoint insert_key (k : string) (l : list string) : list string :=
  match l with
  | [] => [k]
  | k' :: rest =>
      match String_as_OT.compare k k' with
      | Gt => k' :: insert_key k rest
      | _ => k :: l
      end
  end.

(** Sorting the group keys: [groupby] is called with its default
    [sort=True]. *)
Definition sort_keys (l : list string) : list string :=
  fold_right insert_key [] l.

(** The index of [df.groupby('fleet_id')]. *)
Definition group_keys (df : DataFrame) : list string :=
  sort_keys (unique (map fleet_id df)).

(** The rows of one group, in row order. *)
Definition group (df : DataFrame) (k : string) : DataFrame :=
  filter (fun r => String.eqb (fleet_id r) k) df.

(** *** agg *)

(** The integer columns are int64: a result that leaves the range wraps
    around. *)
Definition int64_wrap (z : Z) : Z := (z + 2 ^ 63) mod 2 ^ 64 - 2 ^ 63.

(** ['sum'] on an int64 column: the cells are added in row order into an
    int64 accumulator. *)
Definition sum (l : list Z) : Z :=
  fold_left (fun acc x => int64_wrap (acc + x)) l 0.

(** The cast of an int64 to float64: the nearest float, ties to even. *)
Definition float_of_int64 (z : Z) : float :=
  if z <? 0
  then if z =? - 2 ^ 63
       then (- (of_uint63 (Uint63.of_Z (2 ^ 62)) * 2))%float
       else (- of_uint63 (Uint63.of_Z (- z)))%float
  else of_uint63 (Uint63.of_Z z).

(** One step of the compensated summation of pandas' [group_mean]:
    [y = val - compensation; t = sumx + y;
     compensation = t - sumx - y; sumx = t],
    where a compensation that is NaN is reset to 0. *)
Definition kahan_step (acc : float * float) (val : float) : float * float :=
  let '(sumx, compensation) := acc in
  let y := (val - compensation)%float in
  let t := (sumx + y)%float in
  let c := (t - sumx - y)%float in
  (t, if (c =? c)%float then c else 0%float).

(** ['mean'] on an int64 column: the cells are cast to float64 and summed
    in row order, and the sum is divided by the number of cells.  On an
    empty column this is 0/0, NaN; [groupby] never builds an empty group
    ([group_nonempty]). *)
Definition mean (l : list Z) : float :=
  (fst (fold_left kahan_step (map float_of_int64 l) (0%float, 0%float))
   / float_of_int64 (Z.of_nat (length l)))%float.

(** One row of the aggregated frame: indexed by the group key, with the
    three aggregated columns under their original names. *)
Record AggRow := mkAgg {
  agg_key : string;
  agg_availability : float;
  agg_missions_completed : Z;
  agg_maintenance_hours : Z
}.

(** [df.groupby('fleet_id').agg({'availability': 'mean',
    'missions_completed': 'sum', 'maintenance_hours': 'sum'})]. *)
Definition groupby_agg (df : DataFrame) : list AggRow :=
  map (fun k =>
         let g := group df k in
         mkAgg k (mean (map availability g))
                 (sum (map missions_completed g))
                 (sum (map maintenance_hours g)))
      (group_keys df).

(** *** round *)

Definition two52 : float := 4503599627370496%float.

(** C's [rint] in the default rounding mode: the nearest integer, ties to
    the even one, with the sign of the argument.  Below 2^52 adding and
    subtracting 2^52 rounds to an integer; from 2^52 on every float is
    one. *)
Definition np_rint (x : float) : float :=
  let a := abs x in
  let r := if (a <? two52)%float then (a + two52 - two52)%float else a in
  if get_sign x then (- r)%float else r.

Fixpoint power_of_ten (n : nat) : float :=
  match n with
  | O => 1%float
  | S n' => (10 * power_of_ten n')%float
  end.

(** numpy's [round] of a float64 to [decimals] >= 0 places: multiply by
    the power of ten, [rint], divide by the power of ten. *)
Definition round_float (decimals : nat) (x : float) : float :=
  let f := power_of_ten decimals in
  (np_rint (x * f) / f)%float.

(** [.round(decimals)] on the aggregated frame: float columns are rounded,
    integer columns are left as they are. *)
Definition round_frame (decimals : nat) (rows : list AggRow) : list AggRow :=
  map (fun a =>
         mkAgg (agg_key a)
               (round_float decimals (agg_availability a))
               (agg_missions_completed a)
               (agg_maintenance_hours a))
      rows.

(** *** reset_index and the new column names *)

(** One row of the summary frame after [reset_index()] has turned the
    index into the first column and [summary.columns = [...]] has renamed
    the four columns by position. *)
Record SummaryRow := mkSummary {
  summary_fleet_id : string;
  avg_availability : float;
  total_missions : Z;
  total_maintenance_hours : Z
}.

Definition reset_index_renamed (rows : list AggRow) : list SummaryRow :=
  map (fun a =>
         mkSummary (agg_key a) (agg_availability a)
                   (agg_missions_completed a) (agg_maintenance_hours a))
      rows.

(** The frame [summary] of [get_fleet_summary], as a function of [df]. *)
Definition fleet_summary (df : DataFrame) : list SummaryRow :=
  reset_index_renamed (round_frame 1 (groupby_agg df)).

Definition record_of_summary (s : SummaryRow) : json :=
  JDict [("fleet_id", JString (summary_fleet_id s));
         ("avg_availability", JFloat (avg_availability s));
         ("total_missions", JInt (total_missions s));
         ("total_maintenance_hours", JInt (total_maintenance_hours s))].

(** [summary.to_dict(orient='records')]. *)
Definition summary_to_dict_records (summary : list SummaryRow) : list json :=
  map record_of_summary summary.

(** ** The views *)

(** Route 1, ['/']. *)
Definition home : Py Response :=
  ret (jsonify (JDict [("status", JString "online");
                       ("message", JString "Fleet Dashboard API")])).

(** Route 2, ['/api/fleet-data']. *)
Definition get_all_fleet_data : Py Response :=
  (df <- get_fleet_data ;;
   rows <- read df ;;
   ret (jsonify (JList (to_dict_records rows))))%py.

(** Route 3, ['/api/fleet-summary']. *)
Definition get_fleet_summary : Py Response :=
  (df <- get_fleet_data ;;
   rows <- read df ;;
   ret (jsonify (JList (summary_to_dict_records (fleet_summary rows)))))%py.

(** The body of [get_single_fleet] once [df] has been read. *)
Definition single_fleet_response (df : DataFrame) (fid : string) : Response :=
  let fleet_df := select_mask df (eq_mask df fid) in
  if empty fleet_df
  then with_status (jsonify (JDict [("error", JString "Fleet not found")])) 404
  else jsonify (JList (to_dict_records fleet_df)).

(** Route 4, ['/api/fleet/<fleet_id>']. *)
Definition get_single_fleet (fid : string) : Py Response :=
  (df <- get_fleet_data ;;
   rows <- read df ;;
   ret (single_fleet_response rows fid))%py.

(** The four URL rules registered with [@app.route]. *)
Inductive Request :=
| GetHome
| GetFleetData
| GetFleetSummary
| GetFleet (fid : string).

Definition dispatch (req : Request) : Py Response :=
  match req with
  | GetHome => home
  | GetFleetData => get_all_fleet_data
  | GetFleetSummary => get_fleet_summary
  | GetFleet fid => get_single_fleet fid
  end.

(** ** Definitions used to state the properties *)

(** The rows of the frame [pd.DataFrame(data)] builds. *)
Definition dataset : DataFrame := rows_of_columns data.

(** The rows whose [fleet_id] is equal, as a string, to [fid]. *)
Definition rows_with_id (fid : string) (df : DataFrame) : DataFrame :=
  filter (fun r => if string_dec (fleet_id r) fid then true else false) df.

(** Reading a record back into a row: the inverse of [record_of_row]. *)
Definition row_of_record (v : json) : option Row :=
  match v with
  | JDict [("fleet_id", JString i); ("month", JString m);
           ("availability", JInt a); ("missions_completed", JInt c);
           ("maintenance_hours", JInt h)] => Some (mkRow i m a c h)
  | _ => None
  end.

Fixpoint rows_of_records (items : list json) : option (list Row) :=
  match items with
  | [] => Some []
  | v :: rest =>
      match row_of_record v, rows_of_records rest with
      | Some r, Some rs => Some (r :: rs)
      | _, _ => None
      end
  end.

(** The ["fleet_id"] field of a record, when it is a string. *)
Definition fleet_id_of (v : json) : option string :=
  match field "fleet_id" v with
  | Some (JString s) => Some s
  | _ => None
  end.

(** The ["fleet_id"] fields of a list of records, in order. *)
Fixpoint fleet_ids_of (items : list json) : list string :=
  match items with
  | [] => []
  | v :: rest =>
      match fleet_id_of v with
      | Some s => s :: fleet_ids_of rest
      | None => fleet_ids_of rest
      end
  end.

(** Whether a record carries the given ["fleet_id"]. *)
Definition has_fleet_id (fid : string) (v : json) : bool :=
  match fleet_id_of v with
  | Some s => String.eqb s fid
  | None => false
  end.

(** *** Exact arithmetic

    The sum, the mean and the rounding as they would be over the integers
    and the rationals, to state what the int64 and float64 computations
    are compared with. *)

Definition exact_sum (l : list Z) : Z := fold_right Z.add 0 l.

Definition exact_mean (l : list Z) : Q :=
  (inject_Z (exact_sum l) / inject_Z (Z.of_nat (length l)))%Q.

(** Rounding a rational to the nearest integer, ties to the even
    neighbour: the rule of [np_rint]. *)
Definition rint (x : Q) : Z :=
  let n := Qnum x in
  let d := Z.pos (Qden x) in
  let q := n / d in
  match 2 * (n mod d) ?= d with
  | Lt => q
  | Gt => q + 1
  | Eq => if Z.even q then q else q + 1
  end.

(** Rounding to the nearest integer, ties away from zero (the schoolbook
    round-half-up); used only to compare the two modes. *)
Definition rint_half_up (x : Q) : Z :=
  let n := Z.abs (Qnum x) in
  let d := Z.pos (Qden x) in
  let q := n / d in
  Z.sgn (Qnum x) * (if 2 * (n mod d) <? d then q else q + 1).

(** Rounding a rational to [decimals] places: scale, round to an integer,
    scale back. *)
Definition round_with (r : Q -> Z) (decimals : nat) (x : Q) : Q :=
  let scale := inject_Z (10 ^ Z.of_nat decimals) in
  (inject_Z (r (x * scale)) / scale)%Q.

(** The exact mean availability of one fleet, scaled by ten: the number
    that is rounded to an integer when rounding to one decimal. *)
Definition scaled_mean (df : DataFrame) (k : string) : Q :=
  (exact_mean (map availability (group df k)) * 10)%Q.

(** The exact mean availability of one fleet rounded to one decimal, under
    a given integer rounding. *)
Definition rounded_mean (r : Q -> Z) (df : DataFrame) (k : string) : Q :=
  round_with r 1 (exact_mean (map availability (group df k))).

(** The float64 mean availability of one fleet, scaled by ten as
    [round_float 1] scales it. *)
Definition binary64_scaled_mean (df : DataFrame) (k : string) : float :=
  (mean (map availability (group df k)) * 10)%float.

(** *** int64 frames *)

Definition int64_range (z : Z) : Prop := - 2 ^ 63 <= z < 2 ^ 63.

(** A frame whose integer cells all fit the int64 columns pandas gives
    them. *)
Definition int64_frame (df : DataFrame) : Prop :=
  Forall (fun r => int64_range (availability r)
                   /\ int64_range (missions_completed r)
                   /\ int64_range (maintenance_hours r))
         df.

(** *** Integers in the float format

    Notions of the standard library's specification of binary64, used to
    show that sums of small integers are exact. *)

(** [p] shifted left by [n] binary places. *)
Definition shift_left (p : positive) (n : Z) : positive :=
  match n with
  | Zpos k => Pos.iter xO p k
  | _ => p
  end.

(** The normal form of the positive integer [c] below 2^53: a mantissa of
    exactly 53 bits. *)
Definition normal_form (s : bool) (c : positive) : spec_float :=
  S754_finite s (shift_left c (53 - Zpos (digits2_pos c)))
              (Zpos (digits2_pos c) - 53).

(** The float nearest to an integer, in the specification. *)
Definition SF_of_Z (z : Z) : spec_float := binary_normalize prec emax z 0 false.

(** ** Running the views *)

Section Running.

Variable h : Heap.

Lemma data_same_lengths : same_lengths data = true.
Proof. reflexivity. Qed.

(** [get_fleet_data] never raises: it appends the literal frame to the
    heap and returns the reference to it. *)
Lemma get_fleet_data_run :
  get_fleet_data h = Returned (length h) (h ++ [dataset]).
Proof.
  unfold get_fleet_data, bind, pd_DataFrame, ret.
  rewrite data_same_lengths. reflexivity.
Qed.

Lemma read_fresh (rows : DataFrame) :
  read (length h) (h ++ [rows]) = Returned rows (h ++ [rows]).
Proof.
  unfold read.
  rewrite nth_error_app2 by apply Nat.le_refl.
  rewrite Nat.sub_diag. reflexivity.
Qed.

(** A view that fetches the frame and returns a function of its rows. *)
Lemma run_on_dataset {A : Type} (k : DataFrame -> A) :
  (df <- get_fleet_data ;; rows <- read df ;; ret (k rows))%py h
  = Returned (k dataset) (h ++ [dataset]).
Proof.
  unfold bind at 1. rewrite get_fleet_data_run.
  unfold bind. rewrite read_fresh. reflexivity.
Qed.

Lemma get_all_fleet_data_run :
  get_all_fleet_data h
  = Returned (jsonify (JList (to_dict_records dataset))) (h ++ [dataset]).
Proof. apply (run_on_dataset (fun rows => jsonify (JList (to_dict_records rows)))). Qed.

Lemma get_fleet_summary_run :
  get_fleet_summary h
  = Returned
      (jsonify (JList (summary_to_dict_records (fleet_summary dataset))))
      (h ++ [dataset]).
Proof.
  apply (run_on_dataset
           (fun rows => jsonify (JList (summary_to_dict_records (fleet_summary rows))))).
Qed.

Lemma get_single_fleet_run (fid : string) :
  get_single_fleet fid h
  = Returned (single_fleet_response dataset fid) (h ++ [dataset]).
Proof. apply (run_on_dataset (fun rows => single_fleet_response rows fid)). Qed.

End Running.

(** ** Mask selection *)

Lemma select_eq_mask (df : DataFrame) (fid : string) :
  select_mask df (eq_mask df fid) = rows_with_id fid df.
Proof.
  unfold eq_mask, rows_with_id.
  induction df as [|r df IH]; simpl; [reflexivity|].
  rewrite IH.
  destruct (string_dec (fleet_id r) fid) as [E|N].
  - apply String.eqb_eq in E. rewrite E. reflexivity.
  - apply String.eqb_neq in N. rewrite N. reflexivity.
Qed.

Lemma rows_with_id_nil (df : DataFrame) (fid : string) :
  rows_with_id fid df = [] <-> (forall r, In r df -> fleet_id r <> fid).
Proof.
  unfold rows_with_id. split.
  - intros E r Hin Heq.
    assert (Hr : In r (filter (fun r => if string_dec (fleet_id r) fid
                                        then true else false) df)).
    { apply filter_In. split; [assumption|].
      destruct (string_dec (fleet_id r) fid); [reflexivity|contradiction]. }
    rewrite E in Hr. inversion Hr.
  - intros H. induction df as [|r df IH]; simpl; [reflexivity|].
    destruct (string_dec (fleet_id r) fid) as [E|N].
    + exfalso. apply (H r); [left; reflexivity|assumption].
    + apply IH. intros r' Hin. apply H. right. assumption.
Qed.

Lemma empty_true (df : DataFrame) : empty df = true <-> df = [].
Proof. destruct df; simpl; split; intros; congruence. Qed.

(** ** Records can be read back *)

Lemma rows_of_records_to_dict (df : DataFrame) :
  rows_of_records (to_dict_records df) = Some df.
Proof.
  induction df as [|r df IH]; [reflexivity|].
  change (to_dict_records (r :: df))
    with (record_of_row r :: to_dict_records df).
  cbn [rows_of_records]. rewrite IH.
  destruct r; reflexivity.
Qed.

(** ** Group keys: distinct, sorted, and independent of row order *)

Section GroupKeys.

Local Abbreviation lt := String_as_OT.lt.
Local Abbreviation compare := String_as_OT.compare.

Lemma compare_Eq (k k' : string) : compare k k' = Eq -> k = k'.
Proof.
  intros H. pose proof (String_as_OT.compare_spec k k') as S.
  rewrite H in S. inversion S. assumption.
Qed.

Lemma compare_Lt (k k' : string) : compare k k' = Lt -> lt k k'.
Proof. intros H. exact H. Qed.

Lemma compare_Gt (k k' : string) : compare k k' = Gt -> lt k' k.
Proof.
  intros H. pose proof (String_as_OT.compare_spec k k') as S.
  rewrite H in S. inversion S. assumption.
Qed.

Lemma lt_irrefl (k : string) : ~ lt k k.
Proof. apply (@StrictOrder_Irreflexive _ _ String_as_OT.lt_strorder). Qed.

Lemma lt_trans (a b c : string) : lt a b -> lt b c -> lt a c.
Proof. apply (@StrictOrder_Transitive _ _ String_as_OT.lt_strorder). Qed.

Lemma In_unique (l : list string) (k : string) :
  In k (unique l) <-> In k l.
Proof.
  induction l as [|a l IH]; simpl; [tauto|].
  rewrite filter_In, IH.
  destruct (String.eqb_spec a k) as [E|N]; simpl.
  - subst. split; [intros [H|[_ H]]; [auto|discriminate] | auto].
  - split.
    + intros [H|[H _]]; auto.
    + intros [H|H]; auto.
Qed.

Lemma NoDup_unique (l : list string) : NoDup (unique l).
Proof.
  induction l as [|a l IH]; simpl; constructor.
  - rewrite filter_In. intros [_ H].
    rewrite String.eqb_refl in H. discriminate.
  - apply NoDup_filter. assumption.
Qed.

Lemma In_insert_key (k : string) (l : list string) (x : string) :
  In x (insert_key k l) <-> x = k \/ In x l.
Proof.
  induction l as [|a l IH]; simpl.
  - split; intros [H|H]; auto.
  - destruct (compare k a); simpl; try rewrite IH;
      split; intros H; intuition auto.
Qed.

Lemma insert_key_sorted (k : string) (l : list string) :
  StronglySorted lt l -> ~ In k l -> StronglySorted lt (insert_key k l).
Proof.
  induction 1 as [|a l Hs IH Ha]; intros Hk; simpl.
  - repeat constructor.
  - destruct (compare k a) eqn:C.
    + apply compare_Eq in C. subst. exfalso. apply Hk. left. reflexivity.
    + constructor; [constructor; assumption|].
      constructor; [exact C|].
      rewrite Forall_forall in Ha |- *.
      intros x Hx. apply lt_trans with a; [exact C|auto].
    + apply compare_Gt in C.
      constructor.
      * apply IH. intros Hin. apply Hk. right. assumption.
      * rewrite Forall_forall in Ha |- *.
        intros x Hx. apply In_insert_key in Hx.
        destruct Hx as [->|Hx]; auto.
Qed.

Lemma In_sort_keys (l : list string) (x : string) :
  In x (sort_keys l) <-> In x l.
Proof.
  unfold sort_keys. induction l as [|a l IH]; simpl; [tauto|].
  rewrite In_insert_key, IH. intuition auto.
Qed.

Lemma sort_keys_sorted (l : list string) :
  NoDup l -> StronglySorted lt (sort_keys l).
Proof.
  unfold sort_keys. induction 1 as [|a l Ha Hn IH]; simpl.
  - constructor.
  - apply insert_key_sorted; [assumption|].
    intros Hin. apply Ha. apply (In_sort_keys l a). exact Hin.
Qed.

Lemma In_group_keys (df : DataFrame) (k : string) :
  In k (group_keys df) <-> In k (map fleet_id df).
Proof. unfold group_keys. rewrite In_sort_keys. apply In_unique. Qed.

Lemma group_keys_sorted (df : DataFrame) :
  StronglySorted lt (group_keys df).
Proof. apply sort_keys_sorted, NoDup_unique. Qed.

Lemma sorted_NoDup (l : list string) : StronglySorted lt l -> NoDup l.
Proof.
  induction 1 as [|a l Hs IH Ha]; constructor; [|assumption].
  intros Hin. rewrite Forall_forall in Ha.
  apply (lt_irrefl a). auto.
Qed.



End GroupKeys.

(** ** Small integers are exact in binary64

    The float of an integer below 2^53 is that integer, and adding or
    subtracting two of them is exact as long as the result stays below
    2^53.  The proofs go through the standard library's specification of
    the primitive operations ([add_spec], [sub_spec], [of_uint63_spec]). *)

Lemma digits_size (p : positive) : digits2_pos p = Pos.size p.
Proof. induction p; simpl; congruence. Qed.

Lemma iter_xO_succ (p : positive) (k : positive) :
  Pos.iter xO p (Pos.succ k) = xO (Pos.iter xO p k).
Proof. apply Pos.iter_succ. Qed.

Lemma shift_left_value (p : positive) (n : Z) :
  0 <= n -> Zpos (shift_left p n) = Zpos p * 2 ^ n.
Proof.
  destruct n as [|k|k]; intros H; try lia.
  - simpl. lia.
  - unfold shift_left. induction k using Pos.peano_ind.
    + simpl. lia.
    + rewrite Pos.iter_succ, Pos2Z.inj_xO, IHk, Pos2Z.inj_succ, Z.pow_succ_r by lia.
      lia.
Qed.

Lemma shift_left_digits (p : positive) (n : Z) :
  0 <= n -> Zpos (digits2_pos (shift_left p n)) = Zpos (digits2_pos p) + n.
Proof.
  destruct n as [|k|k]; intros H; try lia.
  - simpl. lia.
  - unfold shift_left. induction k using Pos.peano_ind.
    + simpl. lia.
    + rewrite Pos.iter_succ. cbn [digits2_pos]. rewrite Pos2Z.inj_succ, IHk by lia. lia.
Qed.

Lemma shift_left_twice (p : positive) (n m : Z) :
  0 <= n -> 0 <= m -> shift_left (shift_left p n) m = shift_left p (n + m).
Proof.
  intros Hn Hm. apply Pos2Z.inj.
  rewrite !shift_left_value, Z.pow_add_r by lia. lia.
Qed.

Lemma iter_pos_iter {A : Type} (f : A -> A) (n : positive) (x : A) :
  iter_pos f n x = Pos.iter f x n.
Proof.
  revert x. induction n as [n IH|n IH|]; intros x; simpl.
  - rewrite !IH. rewrite <- Pos.iter_swap. rewrite <- Pos.iter_swap. reflexivity.
  - rewrite !IH. reflexivity.
  - reflexivity.
Qed.

Lemma shr_exact (k : positive) :
  forall p : positive,
    iter_pos shr_1 k (Build_shr_record (Zpos (Pos.iter xO p k)) false false)
    = Build_shr_record (Zpos p) false false.
Proof.
  induction k using Pos.peano_ind; intros p.
  - reflexivity.
  - rewrite iter_pos_iter, Pos.iter_succ_r, Pos.iter_succ. simpl shr_1.
    rewrite <- iter_pos_iter. apply IHk.
Qed.


Lemma fexp_small (n : Z) : 0 < n -> fexp prec emax n = n - 53.
Proof. intros H. unfold fexp, SpecFloat.emin, prec, emax. lia. Qed.

Lemma round_aux_normal (s : bool) (m : positive) (e : Z) :
  Zpos (digits2_pos m) = 53 -> -1074 <= e <= 971 ->
  binary_round_aux prec emax s (Zpos m) e loc_Exact = S754_finite s m e.
Proof.
  intros Hd He. unfold binary_round_aux, shr_fexp. cbn [Zdigits2].
  assert (F : fexp prec emax (Zpos (digits2_pos m) + e) - e = 0).
  { rewrite Hd. unfold fexp, SpecFloat.emin, prec, emax. lia. }
  rewrite F. cbn [shr shr_record_of_loc shr_m loc_of_shr_record round_nearest_even Zdigits2].
  rewrite F. cbn [shr shr_record_of_loc shr_m].
  replace (e <=? emax - prec) with true; [reflexivity|].
  symmetry. apply Z.leb_le. unfold emax, prec. lia.
Qed.

Lemma binary_round_int (s : bool) (c : positive) (k : Z) :
  0 <= k -> Zpos (digits2_pos c) <= 53 -> k <= 1000 ->
  binary_round prec emax s (shift_left c k) (- k) = normal_form s c.
Proof.
  intros Hk Hd Hk'. unfold binary_round.
  pose proof (Pos2Z.is_pos (digits2_pos c)) as Hpos.
  rewrite shift_left_digits by assumption.
  replace (Zpos (digits2_pos c) + k + - k) with (Zpos (digits2_pos c)) by lia.
  rewrite fexp_small by assumption.
  unfold shl_align.
  set (t := Zpos (digits2_pos c) - 53).
  destruct (t - - k) as [|j|j] eqn:D.
  - (* no shift at all *)
    rewrite round_aux_normal.
    + unfold normal_form. f_equal; [f_equal|]; lia.
    + rewrite shift_left_digits by assumption. lia.
    + lia.
  - (* shift right, exactly *)
    unfold binary_round_aux, shr_fexp. cbn [Zdigits2].
    rewrite shift_left_digits by assumption.
    replace (Zpos (digits2_pos c) + k + - k) with (Zpos (digits2_pos c)) by lia.
    rewrite fexp_small by assumption. fold t. rewrite D.
    cbn [shr shr_record_of_loc].
    replace (shift_left c k) with (Pos.iter xO (shift_left c (53 - Zpos (digits2_pos c))) j).
    2:{ change (Pos.iter xO (shift_left c (53 - Zpos (digits2_pos c))) j)
          with (shift_left (shift_left c (53 - Zpos (digits2_pos c))) (Zpos j)).
        rewrite shift_left_twice by lia. f_equal. lia. }
    rewrite shr_exact.
    cbn [shr_m loc_of_shr_record round_nearest_even Zdigits2].
    assert (Hd' : Zpos (digits2_pos (shift_left c (53 - Zpos (digits2_pos c)))) = 53).
    { rewrite shift_left_digits by lia. lia. }
    rewrite Hd'.
    assert (F : fexp prec emax (53 + (- k + Zpos j)) - (- k + Zpos j) = 0).
    { unfold fexp, SpecFloat.emin, prec, emax. lia. }
    rewrite F. cbn [shr shr_record_of_loc shr_m].
    replace (- k + Zpos j <=? emax - prec) with true.
    2:{ symmetry. apply Z.leb_le. unfold emax, prec. lia. }
    unfold normal_form. f_equal. lia.
  - (* shift left *)
    change (Pos.iter xO (shift_left c k) j) with (shift_left (shift_left c k) (Zpos j)).
    rewrite shift_left_twice by lia.
    rewrite round_aux_normal.
    + unfold normal_form. f_equal. f_equal. lia.
    + rewrite shift_left_digits by lia. lia.
    + lia.
Qed.


Lemma digits_le_53 (c : positive) :
  Zpos c < 2 ^ 53 -> Zpos (digits2_pos c) <= 53.
Proof.
  intros H. rewrite digits_size.
  pose proof (Pos.size_le c) as L.
  destruct (Z.le_gt_cases (Zpos (Pos.size c)) 53) as [G|G]; [assumption|exfalso].
  assert (P : 2 ^ 54 <= 2 ^ Zpos (Pos.size c)) by (apply Z.pow_le_mono_r; lia).
  assert (Q : 2 ^ Zpos (Pos.size c) <= Zpos c~0).
  { rewrite <- Pos2Z.inj_pow. apply Pos2Z.pos_le_pos. exact L. }
  rewrite Pos2Z.inj_xO in Q.
  change (2 ^ 54) with (2 * 2 ^ 53) in P. lia.
Qed.

Lemma digits_mono (a b : positive) :
  (a <= b)%positive -> Zpos (digits2_pos a) <= Zpos (digits2_pos b).
Proof.
  intros H. rewrite !digits_size.
  destruct (Z.le_gt_cases (Zpos (Pos.size a)) (Zpos (Pos.size b))) as [G|G];
    [assumption|exfalso].
  pose proof (Pos.size_le a) as La. pose proof (Pos.size_gt b) as Gb.
  assert (P : 2 ^ (Zpos (Pos.size b) + 1) <= 2 ^ Zpos (Pos.size a))
    by (apply Z.pow_le_mono_r; lia).
  rewrite Z.pow_add_r in P by lia.
  assert (Qa : 2 ^ Zpos (Pos.size a) <= 2 * Zpos a).
  { rewrite <- Pos2Z.inj_pow, <- Pos2Z.inj_xO. apply Pos2Z.pos_le_pos. exact La. }
  assert (Qb : Zpos b < 2 ^ Zpos (Pos.size b)).
  { rewrite <- Pos2Z.inj_pow. apply Pos2Z.pos_lt_pos. exact Gb. }
  assert (Hab : Zpos a <= Zpos b) by (apply Pos2Z.pos_le_pos; exact H).
  lia.
Qed.


Lemma SF_of_pos (c : positive) :
  Zpos c < 2 ^ 53 -> SF_of_Z (Zpos c) = normal_form false c.
Proof.
  intros H. unfold SF_of_Z, binary_normalize.
  apply (binary_round_int false c 0); [lia|apply digits_le_53; assumption|lia].
Qed.

Lemma aligned (c : positive) (ez : Z) :
  Zpos (digits2_pos c) <= 53 -> ez <= Zpos (digits2_pos c) - 53 ->
  fst (shl_align (shift_left c (53 - Zpos (digits2_pos c))) (Zpos (digits2_pos c) - 53) ez)
  = shift_left c (- ez).
Proof.
  intros Hd He. unfold shl_align.
  destruct (ez - (Zpos (digits2_pos c) - 53)) as [|j|j] eqn:D; cbn [fst].
  - f_equal. lia.
  - lia.
  - change (Pos.iter xO (shift_left c (53 - Zpos (digits2_pos c))) j)
      with (shift_left (shift_left c (53 - Zpos (digits2_pos c))) (Zpos j)).
    rewrite shift_left_twice by lia. f_equal. lia.
Qed.

Lemma SFadd_int (a b : positive) :
  Zpos a + Zpos b < 2 ^ 53 ->
  SF64add (normal_form false a) (normal_form false b) = normal_form false (a + b).
Proof.
  intros H.
  assert (Ha : Zpos (digits2_pos a) <= 53) by (apply digits_le_53; lia).
  assert (Hb : Zpos (digits2_pos b) <= 53) by (apply digits_le_53; lia).
  assert (Hab : Zpos (digits2_pos (a + b)) <= 53)
    by (apply digits_le_53; rewrite Pos2Z.inj_add; lia).
  pose proof (Pos2Z.is_pos (digits2_pos a)).
  pose proof (Pos2Z.is_pos (digits2_pos b)).
  unfold SF64add. unfold normal_form at 1 2. unfold SFadd.
  match goal with |- context [binary_normalize _ _ _ ?e _] => set (ez := e) end.
  assert (Ez : ez = Z.min (Zpos (digits2_pos a) - 53) (Zpos (digits2_pos b) - 53))
    by reflexivity.
  clearbody ez.
  rewrite !aligned by lia.
  cbn [cond_Zopp].
  replace (Zpos (shift_left a (- ez)) + Zpos (shift_left b (- ez)))
    with (Zpos (shift_left (a + b) (- ez))).
  2:{ rewrite !shift_left_value by lia. rewrite Pos2Z.inj_add. lia. }
  unfold binary_normalize.
  replace ez with (- - ez) at 2 by lia.
  apply binary_round_int; lia.
Qed.

Lemma SFsub_int (a b : positive) :
  Zpos a < 2 ^ 53 -> (b < a)%positive ->
  SF64sub (normal_form false a) (normal_form false b) = normal_form false (a - b).
Proof.
  intros H Hlt.
  assert (Hlt' : Zpos b < Zpos a) by (apply Pos2Z.pos_lt_pos; exact Hlt).
  assert (Ha : Zpos (digits2_pos a) <= 53) by (apply digits_le_53; lia).
  assert (Hb : Zpos (digits2_pos b) <= 53) by (apply digits_le_53; lia).
  assert (Hs : Zpos (a - b) = Zpos a - Zpos b) by (apply Pos2Z.inj_sub; exact Hlt).
  assert (Hab : Zpos (digits2_pos (a - b)) <= 53) by (apply digits_le_53; lia).
  pose proof (Pos2Z.is_pos (digits2_pos a)).
  pose proof (Pos2Z.is_pos (digits2_pos b)).
  unfold SF64sub. unfold normal_form at 1 2. unfold SFsub.
  match goal with |- context [binary_normalize _ _ _ ?e _] => set (ez := e) end.
  assert (Ez : ez = Z.min (Zpos (digits2_pos a) - 53) (Zpos (digits2_pos b) - 53))
    by reflexivity.
  clearbody ez.
  rewrite !aligned by lia.
  cbn [cond_Zopp].
  replace (Zpos (shift_left a (- ez)) - Zpos (shift_left b (- ez)))
    with (Zpos (shift_left (a - b) (- ez))).
  2:{ rewrite !shift_left_value by lia. rewrite Hs. lia. }
  unfold binary_normalize.
  replace ez with (- - ez) at 2 by lia.
  apply binary_round_int; lia.
Qed.

Lemma SFsub_same (a : positive) :
  SF64sub (normal_form false a) (normal_form false a) = S754_zero false.
Proof.
  unfold SF64sub, SFsub, normal_form. cbn [cond_Zopp].
  rewrite Z.sub_diag. reflexivity.
Qed.


Lemma Prim2SF_of_int64 (z : Z) :
  0 <= z < 2 ^ 63 -> Prim2SF (float_of_int64 z) = SF_of_Z z.
Proof.
  intros H. unfold float_of_int64, SF_of_Z.
  replace (z <? 0) with false by (symmetry; apply Z.ltb_ge; lia).
  rewrite of_uint63_spec, Uint63.of_Z_spec.
  rewrite Z.mod_small; [reflexivity|exact H].
Qed.

Lemma SF_of_Z_cases (z : Z) :
  0 <= z < 2 ^ 53 ->
  SF_of_Z z = match z with
              | Zpos c => normal_form false c
              | _ => S754_zero false
              end.
Proof.
  intros H. destruct z as [|c|c]; [reflexivity| |lia].
  apply SF_of_pos. lia.
Qed.

Lemma float_add_exact (a b : Z) :
  0 <= a -> 0 <= b -> a + b < 2 ^ 53 ->
  (float_of_int64 a + float_of_int64 b)%float = float_of_int64 (a + b).
Proof.
  intros Ha Hb H. apply Prim2SF_inj.
  assert (B : 2 ^ 53 < 2 ^ 63) by reflexivity.
  rewrite add_spec, !Prim2SF_of_int64 by lia.
  rewrite !SF_of_Z_cases by lia.
  destruct a as [|a|a], b as [|b|b]; try lia; try reflexivity.
  change (Z.pos a + Z.pos b) with (Z.pos (a + b)).
  apply SFadd_int. exact H.
Qed.

Lemma float_sub_exact (a b : Z) :
  0 <= b <= a -> a < 2 ^ 53 ->
  (float_of_int64 a - float_of_int64 b)%float = float_of_int64 (a - b).
Proof.
  intros Hb H. apply Prim2SF_inj.
  assert (B : 2 ^ 53 < 2 ^ 63) by reflexivity.
  rewrite sub_spec, !Prim2SF_of_int64 by lia.
  rewrite !SF_of_Z_cases by lia.
  destruct a as [|a|a], b as [|b|b]; try lia; try reflexivity.
  destruct (Pos.compare_spec b a) as [E|L|G].
  - subst b. rewrite Z.sub_diag. apply SFsub_same.
  - replace (Z.pos a - Z.pos b) with (Z.pos (a - b))
      by (rewrite Pos2Z.inj_sub by assumption; reflexivity).
    apply SFsub_int; [lia|assumption].
  - assert (Z.pos a < Z.pos b) by (apply Pos2Z.pos_lt_pos; exact G). lia.
Qed.

(** ** Aggregates *)

Lemma int64_wrap_range (z : Z) : - 2 ^ 63 <= z < 2 ^ 63 -> int64_wrap z = z.
Proof.
  intros H. unfold int64_wrap. rewrite Z.mod_small; lia.
Qed.

Lemma int64_wrap_add (a x : Z) :
  int64_wrap (int64_wrap a + x) = int64_wrap (a + x).
Proof.
  unfold int64_wrap. f_equal.
  replace ((a + 2 ^ 63) mod 2 ^ 64 - 2 ^ 63 + x + 2 ^ 63)
    with ((a + 2 ^ 63) mod 2 ^ 64 + x) by lia.
  rewrite Z.add_mod_idemp_l by lia. f_equal. lia.
Qed.

Lemma sum_from (l : list Z) :
  forall acc : Z,
    fold_left (fun acc x => int64_wrap (acc + x)) l (int64_wrap acc)
    = int64_wrap (acc + exact_sum l).
Proof.
  induction l as [|a l IH]; intros acc; simpl.
  - rewrite Z.add_0_r. reflexivity.
  - rewrite int64_wrap_add, IH. f_equal. lia.
Qed.

(** The int64 sum is the exact sum, wrapped once. *)
Lemma sum_exact_sum (l : list Z) : sum l = int64_wrap (exact_sum l).
Proof.
  unfold sum. change 0 with (int64_wrap 0) at 1. apply sum_from.
Qed.

Lemma exact_sum_perm (l l' : list Z) :
  Permutation l l' -> exact_sum l = exact_sum l'.
Proof.
  unfold exact_sum. induction 1; simpl; lia.
Qed.


Lemma exact_sum_nonneg (l : list Z) :
  (forall a, In a l -> 0 <= a) -> 0 <= exact_sum l.
Proof.
  unfold exact_sum. induction l as [|a l IH]; intros H; simpl; [lia|].
  assert (0 <= a) by (apply H; left; reflexivity).
  assert (0 <= fold_right Z.add 0 l)
    by (apply IH; intros a' Ha'; apply H; right; assumption).
  lia.
Qed.


(** The cells of one group are cells of the frame, and when no cell is
    negative their exact sum is at most that of the whole column. *)
Lemma exact_sum_group (f : Row -> Z) (df : DataFrame) (k : string) :
  (forall r, In r df -> 0 <= f r) ->
  (forall a, In a (map f (group df k)) -> 0 <= a)
  /\ exact_sum (map f (group df k)) <= exact_sum (map f df).
Proof.
  intros H. split.
  - intros a Ha. apply in_map_iff in Ha. destruct Ha as [r [<- Hr]].
    apply H. unfold group in Hr. apply filter_In in Hr. tauto.
  - unfold group, exact_sum. induction df as [|r df IH]; simpl; [lia|].
    assert (0 <= f r) by (apply H; left; reflexivity).
    assert (IH' : fold_right Z.add 0
                    (map f (filter (fun r => String.eqb (fleet_id r) k) df))
                  <= fold_right Z.add 0 (map f df))
      by (apply IH; intros r' Hr'; apply H; right; assumption).
    destruct (String.eqb (fleet_id r) k); simpl; lia.
Qed.

Lemma float_of_int64_0 : float_of_int64 0 = 0%float.
Proof. reflexivity. Qed.

(** One step of the compensated summation on small integers: the sum is
    exact and the compensation stays 0. *)
Lemma kahan_step_exact (s a : Z) :
  0 <= s -> 0 <= a -> s + a < 2 ^ 53 ->
  kahan_step (float_of_int64 s, 0%float) (float_of_int64 a)
  = (float_of_int64 (s + a), 0%float).
Proof.
  intros Hs Ha H. unfold kahan_step.
  assert (Y : (float_of_int64 a - 0)%float = float_of_int64 a).
  { rewrite <- float_of_int64_0, float_sub_exact by lia.
    rewrite Z.sub_0_r. reflexivity. }
  rewrite Y, float_add_exact by lia.
  rewrite (float_sub_exact (s + a) s) by lia.
  replace (s + a - s) with a by lia.
  rewrite float_sub_exact by lia.
  rewrite Z.sub_diag. reflexivity.
Qed.

Lemma kahan_exact (l : list Z) :
  forall s : Z,
    0 <= s -> (forall a, In a l -> 0 <= a) -> s + exact_sum l < 2 ^ 53 ->
    fold_left kahan_step (map float_of_int64 l) (float_of_int64 s, 0%float)
    = (float_of_int64 (s + exact_sum l), 0%float).
Proof.
  induction l as [|a l IH]; intros s Hs Hl H; cbn [map fold_left].
  - change (exact_sum []) with 0. rewrite Z.add_0_r. reflexivity.
  - change (exact_sum (a :: l)) with (a + exact_sum l) in *.
    assert (Ha : 0 <= a) by (apply Hl; left; reflexivity).
    assert (Hl' : forall a', In a' l -> 0 <= a')
      by (intros a' Ha'; apply Hl; right; assumption).
    pose proof (exact_sum_nonneg l Hl') as Hn.
    rewrite kahan_step_exact by lia.
    rewrite IH by (try assumption; lia).
    f_equal. f_equal. lia.
Qed.

(** On a column of non-negative integers whose exact sum is below 2^53,
    ['mean'] divides the float of that exact sum by the float of the
    count. *)
Lemma mean_exact (l : list Z) :
  (forall a, In a l -> 0 <= a) -> exact_sum l < 2 ^ 53 ->
  mean l = (float_of_int64 (exact_sum l)
            / float_of_int64 (Z.of_nat (length l)))%float.
Proof.
  intros Hl H. unfold mean.
  change (0%float, 0%float) with (float_of_int64 0, 0%float).
  rewrite kahan_exact by (try assumption; lia).
  reflexivity.
Qed.


(** Every key of the index has at least one row: no aggregate is taken
    over an empty group. *)
Lemma group_nonempty (df : DataFrame) (k : string) :
  In k (group_keys df) -> group df k <> [].
Proof.
  rewrite In_group_keys, in_map_iff. intros [r [E Hin]] Hnil.
  assert (Hr : In r (group df k)).
  { unfold group. apply filter_In. split; [assumption|].
    apply String.eqb_eq. assumption. }
  rewrite Hnil in Hr. inversion Hr.
Qed.

(** The first column of the summary is the sorted index of the groupby. *)
Lemma summary_keys (df : DataFrame) :
  map summary_fleet_id (fleet_summary df) = group_keys df.
Proof.
  unfold fleet_summary, reset_index_renamed, round_frame, groupby_agg.
  rewrite !map_map. simpl. apply map_id.
Qed.

(** The summary, one row per group key. *)
Lemma fleet_summary_by_key (df : DataFrame) :
  fleet_summary df
  = map (fun k =>
           mkSummary k
                     (round_float 1 (mean (map availability (group df k))))
                     (sum (map missions_completed (group df k)))
                     (sum (map maintenance_hours (group df k))))
        (group_keys df).
Proof.
  unfold fleet_summary, reset_index_renamed, round_frame, groupby_agg.
  rewrite !map_map. reflexivity.
Qed.

(** ** The literal dataset *)

Lemma dataset_fleet_ids :
  fleet_ids_of (to_dict_records dataset)
  = ["F-18"; "F-18"; "F-18"; "F-18";
     "CH-147"; "CH-147"; "CH-147"; "CH-147";
     "CP-140"; "CP-140"; "CP-140"; "CP-140"].
Proof. vm_compute. reflexivity. Qed.

Lemma dataset_summary :
  fleet_summary dataset
  = [mkSummary "CH-147" 76.2 135 1600;
     mkSummary "CP-140" 90.2 248 725;
     mkSummary "F-18" 85.5 190 1210].
Proof. vm_compute. reflexivity. Qed.

(** No sum over the literal dataset leaves the range of a 64-bit integer,
    so the integer columns never wrap. *)
Lemma dataset_sums_in_int64 :
  Forall (fun s => 0 <= total_missions s < 2 ^ 63
                   /\ 0 <= total_maintenance_hours s < 2 ^ 63)
         (fleet_summary dataset).
Proof. rewrite dataset_summary. repeat constructor; simpl; lia. Qed.

Lemma dataset_int64 : int64_frame dataset.
Proof.
  unfold int64_frame. apply Forall_forall. intros r Hr.
  vm_compute in Hr.
  repeat (destruct Hr as [<-|Hr];
          [unfold int64_range; cbn [availability missions_completed maintenance_hours]; lia|]).
  contradiction.
Qed.

(** On the literal dataset the binary64 computation of the scaled means is
    exact: it lands on the same three numbers as the rational one, two of
    them halfway between two integers. *)
Lemma binary64_scaled_means :
  map (binary64_scaled_mean dataset) (group_keys dataset)
  = [762.5; 902.5; 855]%float
  /\ Forall2 Qeq (map (scaled_mean dataset) (group_keys dataset))
                 [762.5; 902.5; 855]%Q.
Proof.
  split.
  - vm_compute. reflexivity.
  - vm_compute. repeat constructor.
Qed.

(** ** Properties of the endpoints *)

(** C1. Whatever the state of the heap, [/api/fleet-summary] answers 200
    with a list of exactly three summary records, and the one record whose
    fleet_id is "F-18" has avg_availability 85.5, total_missions 190 and
    total_maintenance_hours 1210. *)
Theorem fleet_summary_three_rows_F18 :
  forall h : Heap,
  exists r : Response,
    result (get_fleet_summary h) = Some r
    /\ status r = 200
    /\ length (items_of (body r)) = 3%nat
    /\ filter (has_fleet_id "F-18") (items_of (body r))
       = [JDict [("fleet_id", JString "F-18");
                 ("avg_availability", JFloat 85.5);
                 ("total_missions", JInt 190);
                 ("total_maintenance_hours", JInt 1210)]].
Proof.
  intros h. rewrite get_fleet_summary_run.
  eexists. split; [reflexivity|].
  rewrite dataset_summary. repeat split.
Qed.

(** C2, as the claim states it, is false: for the fleet "CH-147" the mean
    availability is 76.25, and rounding it to one decimal gives 76.2 with
    ties to even but 76.3 with ties up. *)
Lemma rounding_modes_disagree_on_dataset :
  ~ (forall k : string,
        In k (map fleet_id dataset) ->
        (rounded_mean rint dataset k
         == rounded_mean rint_half_up dataset k)%Q).
Proof.
  intros H.
  assert (Hin : In "CH-147" (map fleet_id dataset)).
  { vm_compute. tauto. }
  specialize (H "CH-147" Hin).
  vm_compute in H. discriminate H.
Qed.

(** C2, amended.  On the literal dataset only "F-18" rounds the same way
    under both modes (its mean is 85.5).  The means of "CH-147" and
    "CP-140" are 76.25 and 90.25, exact ties at the first decimal: ties to
    even, which [round(1)] applies, gives 76.2 and 90.2, and ties up would
    give 76.3 and 90.3. *)
Theorem rounding_modes_on_dataset :
  ((scaled_mean dataset "F-18" == 855)%Q
   /\ (rounded_mean rint dataset "F-18" == 85.5)%Q
   /\ (rounded_mean rint_half_up dataset "F-18" == 85.5)%Q)
  /\ ((scaled_mean dataset "CH-147" == 762.5)%Q
      /\ (rounded_mean rint dataset "CH-147" == 76.2)%Q
      /\ (rounded_mean rint_half_up dataset "CH-147" == 76.3)%Q)
  /\ ((scaled_mean dataset "CP-140" == 902.5)%Q
      /\ (rounded_mean rint dataset "CP-140" == 90.2)%Q
      /\ (rounded_mean rint_half_up dataset "CP-140" == 90.3)%Q)
  /\ map avg_availability (fleet_summary dataset) = [76.2; 90.2; 85.5]%float.
Proof.
  repeat split; vm_compute; reflexivity.
Qed.

(** C3. For every frame and every requested id, the lookup answers with
    the records of exactly the rows whose fleet_id is the requested string
    (string equality, so case matters), in row order and with status 200,
    unless there is no such row; then, and only then, it answers 404 with
    the body {"error": "Fleet not found"}.  Reading the records of the
    answer back gives exactly those rows.  The view itself runs the lookup
    on the literal dataset and never raises. *)
Theorem find_by_id_exact_match :
  forall (df : DataFrame) (fid : string),
    single_fleet_response df fid
    = match rows_with_id fid df with
      | [] => mkResponse (JDict [("error", JString "Fleet not found")]) 404
      | _ :: _ => mkResponse (JList (to_dict_records (rows_with_id fid df))) 200
      end
    /\ (status (single_fleet_response df fid) = 404
        <-> (forall r, In r df -> fleet_id r <> fid))
    /\ rows_of_records (items_of (body (single_fleet_response df fid)))
       = Some (rows_with_id fid df)
    /\ (forall h : Heap,
          result (get_single_fleet fid h)
          = Some (single_fleet_response dataset fid)).
Proof.
  intros df fid.
  assert (E : single_fleet_response df fid
              = match rows_with_id fid df with
                | [] => mkResponse (JDict [("error", JString "Fleet not found")]) 404
                | _ :: _ => mkResponse (JList (to_dict_records (rows_with_id fid df))) 200
                end).
  { unfold single_fleet_response. rewrite select_eq_mask.
    destruct (rows_with_id fid df); reflexivity. }
  split; [exact E|]. split; [|split].
  - rewrite <- rows_with_id_nil, E.
    destruct (rows_with_id fid df); simpl; split; intros H;
      try reflexivity; discriminate H.
  - rewrite E. destruct (rows_with_id fid df) as [|r rows] eqn:R.
    + reflexivity.
    + cbn [body items_of]. apply rows_of_records_to_dict.
  - intros h. rewrite get_single_fleet_run. reflexivity.
Qed.

(** C4. [/api/fleet-data] answers with exactly 12 records, each carrying a
    fleet_id; the fleet_ids that occur are exactly "F-18", "CH-147" and
    "CP-140", and each occurs in exactly 4 records. *)
Theorem fleet_data_twelve_rows_three_fleets :
  forall h : Heap,
  exists r : Response,
    result (get_all_fleet_data h) = Some r
    /\ status r = 200
    /\ length (items_of (body r)) = 12%nat
    /\ length (fleet_ids_of (items_of (body r))) = 12%nat
    /\ (forall k : string,
          In k (fleet_ids_of (items_of (body r)))
          <-> k = "F-18" \/ k = "CH-147" \/ k = "CP-140")
    /\ count_occ string_dec (fleet_ids_of (items_of (body r))) "F-18" = 4%nat
    /\ count_occ string_dec (fleet_ids_of (items_of (body r))) "CH-147" = 4%nat
    /\ count_occ string_dec (fleet_ids_of (items_of (body r))) "CP-140" = 4%nat.
Proof.
  intros h. rewrite get_all_fleet_data_run.
  eexists. split; [reflexivity|].
  cbn [body status jsonify items_of].
  rewrite dataset_fleet_ids.
  split; [reflexivity|]. split; [reflexivity|]. split; [reflexivity|].
  split; [|repeat split].
  intros k. split.
  - intros H. simpl in H.
    repeat (destruct H as [H|H]; [subst k; auto|]). contradiction.
  - intros [-> | [-> | ->]]; simpl; auto 20.
Qed.

(** C5. [/api/fleet-data] returns the dataset as it is: the body is the
    list of the records of the rows of the frame [get_fleet_data] built,
    one record per row and in row order, and reading the records back
    gives the very same rows.  The conversion to records used on the way
    keeps, for any frame, the length, the position of every row and all
    its cells. *)
Theorem list_all_is_identity :
  (forall h : Heap,
   exists r : Response,
     result (get_all_fleet_data h) = Some r
     /\ status r = 200
     /\ body r = JList (map record_of_row dataset)
     /\ rows_of_records (items_of (body r)) = Some dataset
     /\ result ((df <- get_fleet_data ;; read df)%py h) = Some dataset)
  /\ (forall df : DataFrame,
        rows_of_records (to_dict_records df) = Some df
        /\ length (to_dict_records df) = length df
        /\ forall i : nat,
             nth_error (to_dict_records df) i
             = option_map record_of_row (nth_error df i)).
Proof.
  split.
  - intros h. rewrite get_all_fleet_data_run.
    eexists. split; [reflexivity|].
    cbn [body status jsonify items_of].
    split; [reflexivity|]. split; [reflexivity|]. split.
    + apply rows_of_records_to_dict.
    + unfold bind. rewrite get_fleet_data_run, read_fresh. reflexivity.
  - intros df. split; [apply rows_of_records_to_dict|].
    unfold to_dict_records. split; [apply length_map|].
    intros i. apply nth_error_map.
Qed.

Lemma find_by_id_exact_match_witness :
  (forall r, In r dataset -> fleet_id r <> "UNKNOWN")
  /\ status (single_fleet_response dataset "UNKNOWN") = 404
  /\ single_fleet_response dataset "f-18"
     = mkResponse (JDict [("error", JString "Fleet not found")]) 404
  /\ status (single_fleet_response dataset "F-18") = 200
  /\ rows_of_records (items_of (body (single_fleet_response dataset "F-18")))
     = Some [mkRow "F-18" "Jan" 85 45 320; mkRow "F-18" "Feb" 87 52 280;
             mkRow "F-18" "Mar" 82 38 360; mkRow "F-18" "Apr" 88 55 250].
Proof.
  assert (H : forall r, In r dataset -> fleet_id r <> "UNKNOWN").
  { apply rows_with_id_nil. vm_compute. reflexivity. }
  split; [exact H|]. split; [|split; [|split]].
  - apply (proj2 (proj1 (proj2 (find_by_id_exact_match dataset "UNKNOWN")))).
    exact H.
  - rewrite (proj1 (find_by_id_exact_match dataset "f-18")).
    vm_compute. reflexivity.
  - rewrite (proj1 (find_by_id_exact_match dataset "F-18")).
    vm_compute. reflexivity.
  - rewrite (proj1 (proj2 (proj2 (find_by_id_exact_match dataset "F-18")))).
    vm_compute. reflexivity.
Defined.

(** C6. For every frame, a fleet_id that occurs in some row of the frame
    occurs in exactly one row of the summary, and a fleet_id that occurs in
    no row of the frame occurs in no row of the summary. *)
Theorem summary_has_each_fleet_once :
  forall (df : DataFrame) (k : string),
    (In k (map fleet_id df) ->
     count_occ string_dec (map summary_fleet_id (fleet_summary df)) k = 1%nat)
    /\ (~ In k (map fleet_id df) ->
        count_occ string_dec (map summary_fleet_id (fleet_summary df)) k = 0%nat).
Proof.
  intros df k. rewrite summary_keys. split; intros H.
  - assert (Hle : (count_occ string_dec (group_keys df) k <= 1)%nat).
    { apply NoDup_count_occ. apply sorted_NoDup, group_keys_sorted. }
    assert (Hgt : (count_occ string_dec (group_keys df) k > 0)%nat).
    { apply count_occ_In. apply In_group_keys. exact H. }
    lia.
  - apply count_occ_not_In. intros Hin. apply H.
    apply In_group_keys. exact Hin.
Qed.

Lemma summary_has_each_fleet_once_witness :
  In "F-18" (map fleet_id dataset)
  /\ count_occ string_dec
       (map summary_fleet_id (fleet_summary dataset)) "F-18" = 1%nat
  /\ ~ In "UNKNOWN" (map fleet_id dataset)
  /\ count_occ string_dec
       (map summary_fleet_id (fleet_summary dataset)) "UNKNOWN" = 0%nat.
Proof.
  assert (H1 : In "F-18" (map fleet_id dataset)) by (left; reflexivity).
  assert (H2 : ~ In "UNKNOWN" (map fleet_id dataset)).
  { intros H. vm_compute in H.
    repeat (destruct H as [H|H]; [discriminate H|]). exact H. }
  split; [exact H1|]. split.
  - exact (proj1 (summary_has_each_fleet_once dataset "F-18") H1).
  - split; [exact H2|].
    exact (proj2 (summary_has_each_fleet_once dataset "UNKNOWN") H2).
Defined.




(** C8. The dataset provider returns the same literal frame on every call,
    whatever the heap holds, as a fresh object; and the response of every
    endpoint is a function of the request alone: it is the same in every
    heap, so a second call right after the first returns the identical
    response. *)
Theorem endpoints_deterministic :
  (forall h : Heap,
     get_fleet_data h = Returned (length h) (h ++ [dataset])
     /\ nth_error (h ++ [dataset]) (length h) = Some dataset
     /\ nth_error h (length h) = None)
  /\ (forall req : Request,
      exists r : Response,
        forall h : Heap, exists h', dispatch req h = Returned r h')
  /\ (forall (req : Request) (h : Heap),
      exists (r : Response) (h1 h2 : Heap),
        dispatch req h = Returned r h1 /\ dispatch req h1 = Returned r h2).
Proof.
  assert (D : forall req : Request,
             exists r : Response,
               forall h : Heap, dispatch req h
                 = Returned r (h ++ match req with
                                    | GetHome => []
                                    | _ => [dataset]
                                    end)).
  { intros [| | |fid].
    - eexists. intros h. unfold dispatch, home, ret.
      rewrite app_nil_r. reflexivity.
    - eexists. intros h. apply get_all_fleet_data_run.
    - eexists. intros h. apply get_fleet_summary_run.
    - eexists. intros h. apply get_single_fleet_run. }
  split; [|split].
  - intros h. split; [apply get_fleet_data_run|]. split.
    + rewrite nth_error_app2 by apply Nat.le_refl.
      rewrite Nat.sub_diag. reflexivity.
    + apply nth_error_None. apply Nat.le_refl.
  - intros req. destruct (D req) as [r Hr].
    exists r. intros h. eexists. apply Hr.
  - intros req h. destruct (D req) as [r Hr].
    exists r. do 2 eexists. split; apply Hr.
Qed.

(** C9. Every request routed to ['/'] is answered with status 200 and the
    body {"status": "online", "message": "Fleet Dashboard API"}; the view
    neither raises nor touches the heap. *)
Theorem home_always_online :
  forall h : Heap,
    dispatch GetHome h
    = Returned
        (mkResponse (JDict [("status", JString "online");
                            ("message", JString "Fleet Dashboard API")])
                    200)
        h.
Proof. intros h. reflexivity. Qed.

(** C10. The summary of the literal dataset lists the fleets as "CH-147",
    "CP-140", "F-18", in ascending order of fleet_id, and not in the order
    "F-18", "CH-147", "CP-140" in which they first appear in the dataset;
    for every frame the fleet_ids of the summary are in strictly ascending
    lexicographic order, because the group keys are sorted. *)
Theorem summary_sorted_by_fleet_id :
  (forall h : Heap,
   exists r : Response,
     result (get_fleet_summary h) = Some r
     /\ fleet_ids_of (items_of (body r)) = ["CH-147"; "CP-140"; "F-18"])
  /\ unique (map fleet_id dataset) = ["F-18"; "CH-147"; "CP-140"]
  /\ map summary_fleet_id (fleet_summary dataset)
     <> unique (map fleet_id dataset)
  /\ (forall df : DataFrame,
        StronglySorted String_as_OT.lt
                       (map summary_fleet_id (fleet_summary df))).
Proof.
  split; [|split; [|split]].
  - intros h. rewrite get_fleet_summary_run.
    eexists. split; [reflexivity|].
    rewrite dataset_summary. reflexivity.
  - vm_compute. reflexivity.
  - rewrite dataset_summary. vm_compute. intros H. discriminate H.
  - intros df. rewrite summary_keys. apply group_keys_sorted.
Qed.

(** ** Building the frame from its columns *)

Lemma same_lengths_iff (c : ColumnDict) :
  same_lengths c = true
  <-> length (col_month c) = length (col_fleet_id c)
      /\ length (col_availability c) = length (col_fleet_id c)
      /\ length (col_missions_completed c) = length (col_fleet_id c)
      /\ length (col_maintenance_hours c) = length (col_fleet_id c).
Proof.
  unfold same_lengths. rewrite !andb_true_iff, !Nat.eqb_eq. tauto.
Qed.

Lemma zip_columns_columns (ids : list string) :
  forall (months : list string) (av mi ma : list Z),
    length months = length ids -> length av = length ids ->
    length mi = length ids -> length ma = length ids ->
    map fleet_id (zip_columns ids months av mi ma) = ids
    /\ map month (zip_columns ids months av mi ma) = months
    /\ map availability (zip_columns ids months av mi ma) = av
    /\ map missions_completed (zip_columns ids months av mi ma) = mi
    /\ map maintenance_hours (zip_columns ids months av mi ma) = ma.
Proof.
  induction ids as [|i ids IH];
    intros [|m months] [|a av] [|c mi] [|x ma] H1 H2 H3 H4;
    try discriminate; simpl.
  - repeat split.
  - injection H1 as H1. injection H2 as H2.
    injection H3 as H3. injection H4 as H4.
    destruct (IH months av mi ma H1 H2 H3 H4) as (E1 & E2 & E3 & E4 & E5).
    rewrite E1, E2, E3, E4, E5. repeat split.
Qed.

(** X1. [pd.DataFrame(c)] returns exactly when the five columns of [c]
    have one and the same length, and raises ValueError, allocating
    nothing, otherwise.  When it returns, the new frame has one row per
    cell and each of its columns is the list that was passed in for it. *)
Theorem pd_DataFrame_keeps_columns :
  forall (c : ColumnDict) (h : Heap),
    (~ (length (col_month c) = length (col_fleet_id c)
        /\ length (col_availability c) = length (col_fleet_id c)
        /\ length (col_missions_completed c) = length (col_fleet_id c)
        /\ length (col_maintenance_hours c) = length (col_fleet_id c)) ->
     exists msg, (df <- pd_DataFrame c ;; read df)%py h = Raised (ValueError msg))
    /\ (length (col_month c) = length (col_fleet_id c) ->
        length (col_availability c) = length (col_fleet_id c) ->
        length (col_missions_completed c) = length (col_fleet_id c) ->
        length (col_maintenance_hours c) = length (col_fleet_id c) ->
        exists rows : DataFrame,
          (df <- pd_DataFrame c ;; read df)%py h = Returned rows (h ++ [rows])
          /\ length rows = length (col_fleet_id c)
          /\ map fleet_id rows = col_fleet_id c
          /\ map month rows = col_month c
          /\ map availability rows = col_availability c
          /\ map missions_completed rows = col_missions_completed c
          /\ map maintenance_hours rows = col_maintenance_hours c).
Proof.
  intros c h. split.
  - intros N.
    assert (F : same_lengths c = false).
    { destruct (same_lengths c) eqn:E; [|reflexivity].
      exfalso. apply N. apply same_lengths_iff. exact E. }
    eexists. unfold bind, pd_DataFrame. rewrite F. reflexivity.
  - intros H1 H2 H3 H4.
    assert (T : same_lengths c = true) by (apply same_lengths_iff; tauto).
    exists (rows_of_columns c). split.
    + unfold bind, pd_DataFrame. rewrite T. apply read_fresh.
    + unfold rows_of_columns.
      destruct (zip_columns_columns _ _ _ _ _ H1 H2 H3 H4)
        as (E1 & E2 & E3 & E4 & E5).
      split; [|tauto].
      rewrite <- E1 at 2. symmetry. apply length_map.
Qed.

Lemma pd_DataFrame_keeps_columns_witness :
  (exists msg,
     (df <- pd_DataFrame (mkColumns ["F-18"; "F-18"] ["Jan"] [85; 87] [45; 52] [320; 280]) ;;
      read df)%py []
     = Raised (ValueError msg))
  /\ exists rows : DataFrame,
       (df <- pd_DataFrame data ;; read df)%py [] = Returned rows [rows]
       /\ map month rows = col_month data.
Proof.
  split.
  - apply (proj1 (pd_DataFrame_keeps_columns
                    (mkColumns ["F-18"; "F-18"] ["Jan"] [85; 87] [45; 52] [320; 280])
                    [])).
    intros (H & _). discriminate H.
  - destruct (proj2 (pd_DataFrame_keeps_columns data [])
                eq_refl eq_refl eq_refl eq_refl)
      as (rows & E & _ & _ & Em & _).
    exists rows. split; [exact E|exact Em].
Defined.

(** ** List repetition *)

Lemma list_mul_length {A : Type} (l : list A) (n : nat) :
  length (list_mul l n) = (n * length l)%nat.
Proof.
  induction n as [|n IH]; simpl; [reflexivity|].
  rewrite length_app, IH. reflexivity.
Qed.

(** X2. Python's [l * n]: the result has [n] times the length of [l], and
    its element at position [i] is the element of [l] at position [i]
    modulo the length of [l]; so the month of row [i] of the dataset is
    the month at position [i mod 4] of the four-month list. *)
Theorem list_mul_cycles :
  forall (A : Type) (l : list A) (n i : nat),
    (i < n * length l)%nat ->
    length (list_mul l n) = (n * length l)%nat
    /\ nth_error (list_mul l n) i = nth_error l (i mod length l).
Proof.
  intros A l n i Hi. split; [apply list_mul_length|].
  revert i Hi. induction n as [|n IH]; intros i Hi; simpl in *; [lia|].
  assert (Hl : (length l <> 0)%nat) by (intros E; rewrite E in Hi; lia).
  destruct (Nat.lt_ge_cases i (length l)) as [Lt|Ge].
  - rewrite nth_error_app1 by assumption.
    rewrite Nat.mod_small by assumption. reflexivity.
  - rewrite nth_error_app2 by assumption.
    rewrite IH by lia.
    replace i with ((i - length l) + 1 * length l)%nat at 2 by lia.
    rewrite Nat.Div0.mod_add. reflexivity.
Qed.

Lemma list_mul_cycles_witness :
  (9 < 3 * length ["Jan"; "Feb"; "Mar"; "Apr"])%nat
  /\ nth_error (col_month data) 9 = Some "Feb".
Proof.
  assert (H : (9 < 3 * length ["Jan"; "Feb"; "Mar"; "Apr"])%nat)
    by (simpl; lia).
  split; [exact H|].
  exact (proj2 (list_mul_cycles string ["Jan"; "Feb"; "Mar"; "Apr"] 3 9 H)).
Defined.

(** ** Groups, lookups and the summary *)

Lemma group_select (df : DataFrame) (k : string) :
  group df k = select_mask df (eq_mask df k).
Proof.
  unfold group, eq_mask.
  induction df as [|r df IH]; simpl; [reflexivity|].
  rewrite IH. reflexivity.
Qed.

Lemma status_of_lookup (df : DataFrame) (fid : string) :
  status (single_fleet_response df fid)
  = if existsb (String.eqb fid) (map fleet_id df) then 200 else 404.
Proof.
  unfold single_fleet_response. rewrite <- group_select. unfold group.
  induction df as [|r df IH]; simpl; [reflexivity|].
  rewrite (String.eqb_sym fid).
  destruct (String.eqb (fleet_id r) fid); simpl; [reflexivity|].
  exact IH.
Qed.

Lemma existsb_eqb_In (k : string) (l : list string) :
  existsb (String.eqb k) l = true <-> In k l.
Proof.
  rewrite existsb_exists. split.
  - intros [x [Hin E]]. apply String.eqb_eq in E. subst. assumption.
  - intros Hin. exists k. split; [assumption|apply String.eqb_refl].
Qed.

Lemma exact_sum_app (l l' : list Z) :
  exact_sum (l ++ l') = exact_sum l + exact_sum l'.
Proof. unfold exact_sum. induction l as [|a l IH]; simpl; lia. Qed.

Lemma exact_sum_flat_map {A B : Type} (f : B -> Z) (g : A -> list B)
      (K : list A) :
  exact_sum (map f (flat_map g K))
  = exact_sum (map (fun k => exact_sum (map f (g k))) K).
Proof.
  induction K as [|k K IH]; simpl; [reflexivity|].
  rewrite map_app, exact_sum_app, IH. reflexivity.
Qed.

Lemma filter_split_perm {A : Type} (p : A -> bool) (l : list A) :
  Permutation (filter p l ++ filter (fun a => negb (p a)) l) l.
Proof.
  induction l as [|a l IH]; simpl; [constructor|].
  destruct (p a); simpl.
  - constructor. assumption.
  - apply Permutation_sym, Permutation_cons_app, Permutation_sym. assumption.
Qed.

Lemma group_of_rest (df : DataFrame) (k k' : string) :
  k' <> k ->
  group (filter (fun r => negb (String.eqb (fleet_id r) k)) df) k'
  = group df k'.
Proof.
  intros N. unfold group.
  induction df as [|r df IH]; simpl; [reflexivity|].
  destruct (String.eqb_spec (fleet_id r) k) as [E|NE]; simpl.
  - destruct (String.eqb_spec (fleet_id r) k') as [E'|NE'];
      [congruence|assumption].
  - rewrite IH. reflexivity.
Qed.

(** Grouping by a duplicate-free list of keys that covers the frame splits
    the frame: the groups, one after the other, hold every row once. *)
Lemma groups_partition (K : list string) :
  forall df : DataFrame,
    NoDup K -> (forall r, In r df -> In (fleet_id r) K) ->
    Permutation (flat_map (group df) K) df.
Proof.
  induction K as [|k K IH]; intros df ND Cover; simpl.
  - destruct df as [|r df]; [constructor|].
    exfalso. apply (Cover r). left. reflexivity.
  - inversion ND as [|? ? Hk ND']; subst.
    set (rest := filter (fun r => negb (String.eqb (fleet_id r) k)) df).
    assert (E : flat_map (group df) K = flat_map (group rest) K).
    { rewrite !flat_map_concat_map. f_equal.
      apply map_ext_in. intros k' Hin. symmetry.
      apply group_of_rest. intros ->. contradiction. }
    rewrite E.
    apply Permutation_trans with (group df k ++ rest).
    + apply Permutation_app_head. apply IH; [assumption|].
      intros r Hr. apply filter_In in Hr. destruct Hr as [Hin Hne].
      destruct (Cover r Hin) as [Ek|HK]; [|assumption].
      rewrite <- Ek, String.eqb_refl in Hne. discriminate.
    + apply filter_split_perm.
Qed.

Lemma group_keys_partition (df : DataFrame) :
  Permutation (flat_map (group df) (group_keys df)) df.
Proof.
  apply groups_partition.
  - apply sorted_NoDup, group_keys_sorted.
  - intros r Hr. apply In_group_keys. apply in_map. assumption.
Qed.

(** X3. The summary and the lookup agree: for every int64 frame, each row
    of the summary aggregates exactly the rows that the lookup of its
    fleet_id selects.  That selection is never empty, the total missions
    and total maintenance hours are the int64 sums over it, and the
    average availability is its float64 mean rounded to one decimal. *)
Theorem summary_row_aggregates_lookup :
  forall (df : DataFrame) (s : SummaryRow),
    int64_frame df ->
    In s (fleet_summary df) ->
    select_mask df (eq_mask df (summary_fleet_id s)) <> []
    /\ avg_availability s
       = round_float 1
           (mean (map availability
                      (select_mask df (eq_mask df (summary_fleet_id s)))))
    /\ total_missions s
       = sum (map missions_completed
                  (select_mask df (eq_mask df (summary_fleet_id s))))
    /\ total_maintenance_hours s
       = sum (map maintenance_hours
                  (select_mask df (eq_mask df (summary_fleet_id s)))).
Proof.
  intros df s _ Hs. rewrite fleet_summary_by_key in Hs.
  apply in_map_iff in Hs. destruct Hs as [k [<- Hk]]. simpl.
  rewrite <- group_select. split; [|repeat split].
  apply group_nonempty. assumption.
Qed.

Lemma summary_row_aggregates_lookup_witness :
  int64_frame dataset
  /\ In (mkSummary "F-18" 85.5 190 1210) (fleet_summary dataset)
  /\ sum (map missions_completed (select_mask dataset (eq_mask dataset "F-18")))
     = 190.
Proof.
  assert (H : In (mkSummary "F-18" 85.5 190 1210) (fleet_summary dataset)).
  { rewrite dataset_summary. right. right. left. reflexivity. }
  split; [exact dataset_int64|]. split; [exact H|].
  destruct (summary_row_aggregates_lookup dataset _ dataset_int64 H)
    as (_ & _ & E & _).
  symmetry. exact E.
Defined.

(** X4. For every frame and every id, the lookup answers 200 exactly when
    the id is one of the fleet_ids listed by the summary, and 404 exactly
    when it is not: the two endpoints know the same fleets. *)
Theorem lookup_succeeds_iff_in_summary :
  forall (df : DataFrame) (fid : string),
    (status (single_fleet_response df fid) = 200
     <-> In fid (map summary_fleet_id (fleet_summary df)))
    /\ (status (single_fleet_response df fid) = 404
        <-> ~ In fid (map summary_fleet_id (fleet_summary df))).
Proof.
  intros df fid. rewrite summary_keys, In_group_keys, status_of_lookup.
  rewrite <- existsb_eqb_In.
  destruct (existsb (String.eqb fid) (map fleet_id df)); split; split;
    intros H; try reflexivity; try discriminate H.
  - exfalso. apply H. reflexivity.
  - intros N. discriminate N.
Qed.

Lemma lookup_succeeds_iff_in_summary_witness :
  In "CP-140" (map summary_fleet_id (fleet_summary dataset))
  /\ status (single_fleet_response dataset "CP-140") = 200
  /\ ~ In "cp-140" (map summary_fleet_id (fleet_summary dataset))
  /\ status (single_fleet_response dataset "cp-140") = 404.
Proof.
  assert (H1 : In "CP-140" (map summary_fleet_id (fleet_summary dataset))).
  { rewrite dataset_summary. right. left. reflexivity. }
  assert (H2 : ~ In "cp-140" (map summary_fleet_id (fleet_summary dataset))).
  { rewrite dataset_summary. intros H. simpl in H.
    repeat (destruct H as [H|H]; [discriminate H|]). exact H. }
  split; [exact H1|]. split.
  - exact (proj2 (proj1 (lookup_succeeds_iff_in_summary dataset "CP-140")) H1).
  - split; [exact H2|].
    exact (proj2 (proj2 (lookup_succeeds_iff_in_summary dataset "cp-140")) H2).
Defined.

(** X5. For every frame, looking up the fleet_ids of the summary one after
    the other returns every row of the frame exactly once: the selections
    put end to end are a permutation of the frame, so they are pairwise
    disjoint, lose no row, and their sizes add up to the number of rows. *)
Theorem lookups_partition_frame :
  forall df : DataFrame,
    Permutation
      (flat_map (fun k => select_mask df (eq_mask df k))
                (map summary_fleet_id (fleet_summary df)))
      df
    /\ fold_right Nat.add 0%nat
         (map (fun k => length (select_mask df (eq_mask df k)))
              (map summary_fleet_id (fleet_summary df)))
       = length df.
Proof.
  intros df. rewrite summary_keys.
  assert (P : Permutation
                (flat_map (fun k => select_mask df (eq_mask df k)) (group_keys df))
                df).
  { rewrite (flat_map_ext _ (group df)).
    - apply group_keys_partition.
    - intros k. symmetry. apply group_select. }
  split; [exact P|].
  rewrite <- (Permutation_length P).
  generalize (group_keys df) as K.
  induction K as [|k K IH]; simpl; [reflexivity|].
  rewrite length_app, IH. reflexivity.
Qed.

(** X6. For every frame whose missions and maintenance hours are not
    negative and add up to less than 2^63, so that no int64 sum wraps, the
    totals of the summary add up to the totals of the frame: the sum of
    total_missions over the summary rows is the sum of missions_completed
    over all rows, and likewise for the maintenance hours.  No row is
    counted twice or left out. *)
Theorem summary_totals_add_up :
  forall df : DataFrame,
    (forall r, In r df -> 0 <= missions_completed r /\ 0 <= maintenance_hours r) ->
    exact_sum (map missions_completed df) < 2 ^ 63 ->
    exact_sum (map maintenance_hours df) < 2 ^ 63 ->
    exact_sum (map total_missions (fleet_summary df))
    = exact_sum (map missions_completed df)
    /\ exact_sum (map total_maintenance_hours (fleet_summary df))
       = exact_sum (map maintenance_hours df).
Proof.
  intros df Hn Hm Hh.
  assert (T : forall f : Row -> Z,
             (forall r, In r df -> 0 <= f r) ->
             exact_sum (map f df) < 2 ^ 63 ->
             exact_sum (map (fun k => sum (map f (group df k))) (group_keys df))
             = exact_sum (map f df)).
  { intros f Hf Hb.
    rewrite (map_ext _ (fun k => exact_sum (map f (group df k)))).
    - rewrite <- (exact_sum_flat_map f (group df)).
      apply exact_sum_perm, Permutation_map, group_keys_partition.
    - intros k. rewrite sum_exact_sum.
      destruct (exact_sum_group f df k Hf) as [Gn Gb].
      pose proof (exact_sum_nonneg _ Gn).
      apply int64_wrap_range. lia. }
  rewrite fleet_summary_by_key, !map_map.
  cbn [total_missions total_maintenance_hours].
  split; apply T; try assumption; intros r Hr; apply (Hn r Hr).
Qed.

Lemma summary_totals_add_up_witness :
  (forall r, In r dataset ->
             0 <= missions_completed r /\ 0 <= maintenance_hours r)
  /\ exact_sum (map total_missions (fleet_summary dataset)) = 573
  /\ exact_sum (map missions_completed dataset) = 573.
Proof.
  assert (Hn : forall r, In r dataset ->
                         0 <= missions_completed r /\ 0 <= maintenance_hours r).
  { intros r Hr. vm_compute in Hr.
    repeat (destruct Hr as [<-|Hr];
            [cbn [missions_completed maintenance_hours]; lia|]).
    contradiction. }
  assert (E : exact_sum (map missions_completed dataset) = 573)
    by (vm_compute; reflexivity).
  split; [exact Hn|]. split; [|exact E].
  rewrite <- E.
  apply (summary_totals_add_up dataset Hn); vm_compute; reflexivity.
Defined.

(** X14. For every int64 frame whose availabilities are not negative and
    add up to less than 2^53, the float sum behind each mean is exact: the
    average availability of a summary row is the float of the exact sum of
    its fleet's availabilities, divided by the float of the number of its
    rows, rounded to one decimal.  No rounding error accumulates in the
    summation. *)
Theorem summary_average_of_exact_sum :
  forall (df : DataFrame) (s : SummaryRow),
    int64_frame df ->
    (forall r, In r df -> 0 <= availability r) ->
    exact_sum (map availability df) < 2 ^ 53 ->
    In s (fleet_summary df) ->
    avg_availability s
    = round_float 1
        (float_of_int64
           (exact_sum (map availability
                           (select_mask df (eq_mask df (summary_fleet_id s)))))
         / float_of_int64
             (Z.of_nat (length (select_mask df (eq_mask df (summary_fleet_id s))))))%float.
Proof.
  intros df s _ Hn Hb Hs. rewrite fleet_summary_by_key in Hs.
  apply in_map_iff in Hs. destruct Hs as [k [<- Hk]].
  cbn [avg_availability summary_fleet_id].
  rewrite <- group_select.
  destruct (exact_sum_group availability df k Hn) as [Gn Gb].
  rewrite mean_exact by (try assumption; lia).
  rewrite length_map. reflexivity.
Qed.

Lemma summary_average_of_exact_sum_witness :
  int64_frame dataset
  /\ (forall r, In r dataset -> 0 <= availability r)
  /\ exact_sum (map availability dataset) < 2 ^ 53
  /\ In (mkSummary "CH-147" 76.2 135 1600) (fleet_summary dataset)
  /\ 76.2%float
     = round_float 1 (float_of_int64 305 / float_of_int64 4)%float.
Proof.
  assert (Hn : forall r, In r dataset -> 0 <= availability r).
  { intros r Hr. vm_compute in Hr.
    repeat (destruct Hr as [<-|Hr]; [cbn [availability]; lia|]).
    contradiction. }
  assert (Hb : exact_sum (map availability dataset) < 2 ^ 53)
    by (vm_compute; reflexivity).
  assert (H : In (mkSummary "CH-147" 76.2 135 1600) (fleet_summary dataset)).
  { rewrite dataset_summary. left. reflexivity. }
  split; [exact dataset_int64|]. split; [exact Hn|]. split; [exact Hb|].
  split; [exact H|].
  exact (summary_average_of_exact_sum dataset _ dataset_int64 Hn Hb H).
Defined.






(** ** What the lookup returns *)

Lemma fleet_id_of_record (r : Row) :
  fleet_id_of (record_of_row r) = Some (fleet_id r).
Proof. reflexivity. Qed.

Lemma fleet_ids_of_records (df : DataFrame) :
  fleet_ids_of (to_dict_records df) = map fleet_id df.
Proof.
  induction df as [|r df IH]; [reflexivity|].
  change (to_dict_records (r :: df))
    with (record_of_row r :: to_dict_records df).
  cbn [fleet_ids_of]. rewrite fleet_id_of_record, IH. reflexivity.
Qed.

Lemma select_ids (df : DataFrame) (fid : string) :
  map fleet_id (select_mask df (eq_mask df fid))
  = repeat fid (count_occ string_dec (map fleet_id df) fid).
Proof.
  unfold eq_mask. induction df as [|r df IH]; simpl; [reflexivity|].
  destruct (string_dec (fleet_id r) fid) as [E|N].
  - rewrite (proj2 (String.eqb_eq _ _) E). simpl. rewrite IH, E. reflexivity.
  - rewrite (proj2 (String.eqb_neq _ _) N). exact IH.
Qed.

(** X12. For every frame and every id, the records of a lookup response
    all carry the requested fleet_id, and there are as many of them as the
    id has occurrences in the fleet_id column; a 404 response carries no
    record at all. *)
Theorem lookup_records_carry_id :
  forall (df : DataFrame) (fid : string),
    fleet_ids_of (items_of (body (single_fleet_response df fid)))
    = repeat fid (count_occ string_dec (map fleet_id df) fid)
    /\ length (items_of (body (single_fleet_response df fid)))
       = count_occ string_dec (map fleet_id df) fid.
Proof.
  intros df fid.
  assert (E : items_of (body (single_fleet_response df fid))
              = to_dict_records (select_mask df (eq_mask df fid))).
  { unfold single_fleet_response.
    destruct (select_mask df (eq_mask df fid)); reflexivity. }
  rewrite E. split.
  - rewrite fleet_ids_of_records. apply select_ids.
  - unfold to_dict_records. rewrite length_map.
    rewrite <- (length_map fleet_id), select_ids. apply repeat_length.
Qed.

(** X13. Every request is answered, in every heap, without an exception
    and with status 200 or 404; the status is 404 exactly for a lookup of
    an id other than "F-18", "CH-147" and "CP-140". *)
Theorem dispatch_status :
  forall (req : Request) (h : Heap),
  exists (r : Response) (h' : Heap),
    dispatch req h = Returned r h'
    /\ (status r = 200 \/ status r = 404)
    /\ (status r = 404
        <-> exists fid, req = GetFleet fid
                        /\ fid <> "F-18" /\ fid <> "CH-147" /\ fid <> "CP-140").
Proof.
  intros [| | |fid] h.
  - do 2 eexists. split; [reflexivity|]. split; [left; reflexivity|].
    split; [discriminate|]. intros (f & E & _). discriminate E.
  - do 2 eexists. split; [apply get_all_fleet_data_run|].
    split; [left; reflexivity|].
    split; [discriminate|]. intros (f & E & _). discriminate E.
  - do 2 eexists. split; [apply get_fleet_summary_run|].
    split; [left; reflexivity|].
    split; [discriminate|]. intros (f & E & _). discriminate E.
  - do 2 eexists. split; [apply get_single_fleet_run|].
    rewrite status_of_lookup.
    destruct (existsb (String.eqb fid) (map fleet_id dataset)) eqn:Ex.
    + split; [left; reflexivity|]. split; [discriminate|].
      intros (f & E & N1 & N2 & N3). injection E as <-.
      apply existsb_eqb_In in Ex. vm_compute in Ex.
      repeat (destruct Ex as [Ex|Ex]; [congruence|]). contradiction.
    + split; [right; reflexivity|]. split; [|reflexivity].
      intros _. exists fid. split; [reflexivity|].
      repeat split; intros ->; vm_compute in Ex; discriminate Ex.
Qed.
